(** * A namespaced Redis cache store: model of [redis/redis.go]

    The Go package [cache] wraps a Redis driver behind a small store with
    two operations, [Set] and [Get], and two constructors,
    [NewRedisStore] and [NewRedisStoreFromConfig].  This file embeds the
    package as Rocq functions and proves the properties of its contract.

    Conventions of the embedding:
    - a Go [string] is a [string] (a sequence of bytes), [""] is [EmptyString];
    - a Go [error] value is [option error], [nil] being [None];
    - [time.Duration] is an [int64] count of nanoseconds, read as a [Z];
    - the driver behind the [redisClient] interface is a value of a type
      [C] carrying whatever state the driver has; a call returns the
      command object together with the driver's next state;
    - a Go [panic] is the [Panicked] outcome of a call. *)

From Stdlib Require Import ZArith List String Ascii Bool Lia.
Import ListNotations.

Local Open Scope string_scope.

(** ** Errors *)

(** Modelled from the spec: the error types of the package ([InvalidExpiry],
    [SetError], [KeyNotFound], [GetError]) and their constructors
    ([NewInvalidExpiry], [NewSetError], [NewKeyNotFound], [NewGetError]) are
    declared in a file of the package that is not part of the sources at
    hand.  Following section 7 of the specification, [InvalidExpiry] carries
    nothing, [SetError] and [GetError] carry the namespaced key and the
    underlying cause, and [KeyNotFound] carries the namespaced key.

    The first two constructors are the errors of the driver: the sentinel
    [redis.Nil], which reports an absent key, and any other failure,
    identified by its message. *)
Inductive error : Type :=
| RedisNil
| DriverError (msg : string)
| InvalidExpiry
| SetError (key : string) (err : error)
| KeyNotFound (key : string)
| GetError (key : string) (err : error).

Definition NewInvalidExpiry : error := InvalidExpiry.
Definition NewSetError (key : string) (err : error) : error := SetError key err.
Definition NewKeyNotFound (key : string) : error := KeyNotFound key.
Definition NewGetError (key : string) (err : error) : error := GetError key err.

(** The result of a call that may panic. *)
Inductive outcome (A : Type) : Type :=
| Returned (a : A)
| Panicked (err : error).
Arguments Returned {A} a.
Arguments Panicked {A} err.

(** ** The packages the store is built on *)

Module time.
(** [type Duration int64], in nanoseconds. *)
Definition Duration : Type := Z.
Definition Hour : Duration := (3600 * 1000000000)%Z.

(** The values an [int64] can hold. *)
Definition in_range (d : Duration) : Prop :=
  (- 2 ^ 63 <= d < 2 ^ 63)%Z.
End time.

Module tls.
(** [tls.Config], of which the store sets [MinVersion] only. *)
Record Config : Type := { MinVersion : Z }.
Definition VersionTLS12 : Z := 771%Z. (* 0x0303 *)
End tls.

Module redis.
(** The sentinel the driver returns for a key that does not exist. *)
Definition Nil : error := RedisNil.

(** [err == redis.Nil] *)
Definition is_Nil (err : error) : bool :=
  match err with
  | RedisNil => true
  | _ => false
  end.

(** The reply of a SET: [StatusCmd], with its accessor [Err]. *)
Record StatusCmd : Type := NewStatusResult
  { status_val : string; status_err : option error }.
Definition Err (cmd : StatusCmd) : option error := status_err cmd.

(** The reply of a GET: [StringCmd], with its accessor [Result]. *)
Record StringCmd : Type := NewStringResult
  { string_val : string; string_err : option error }.
Definition Result (cmd : StringCmd) : string * option error :=
  (string_val cmd, string_err cmd).

(** [redis.Options]: the fields [NewRedisStore] fills in, and [TLSConfig],
    which it leaves at its zero value [nil]. *)
Record Options : Type :=
  { Addr : string; Password : string; DB : Z;
    TLSConfig : option tls.Config }.

(** [redis.ClusterOptions], likewise. *)
Record ClusterOptions : Type :=
  { Addrs : list string; ClusterPassword : string;
    ClusterTLSConfig : option tls.Config }.

(** [redis.UniversalClient], with the two implementations the store
    constructs: [*redis.Client] and [*redis.ClusterClient].  A client is
    identified by the options it was made from. *)
Inductive UniversalClient : Type :=
| NewClient (opt : Options)
| NewClusterClient (opt : ClusterOptions).
End redis.

(** ** Package [cache] *)

Definition namespaceSeparator : string := ":".

(** *** Options *)

Record redisOptions : Type :=
  { opt_namespace : string; opt_clusterMode : bool; opt_enableTLS : bool }.

(** [&redisOptions{}] *)
Definition zero_redisOptions : redisOptions :=
  {| opt_namespace := ""; opt_clusterMode := false; opt_enableTLS := false |}.

(** The interface [RedisOption] has an unexported method, so its
    implementations are the three types of the package. *)
Inductive RedisOption : Type :=
| redisNamespace (r : string)
| redisClusterMode (r : bool)
| redisTLS (r : bool).

Definition apply (option : RedisOption) (options : redisOptions) : redisOptions :=
  match option with
  | redisNamespace r =>
      {| opt_namespace := r;
         opt_clusterMode := opt_clusterMode options;
         opt_enableTLS := opt_enableTLS options |}
  | redisClusterMode r =>
      {| opt_namespace := opt_namespace options;
         opt_clusterMode := r;
         opt_enableTLS := opt_enableTLS options |}
  | redisTLS r =>
      {| opt_namespace := opt_namespace options;
         opt_clusterMode := opt_clusterMode options;
         opt_enableTLS := r |}
  end.

Definition WithRedisNamespace (namespace : string) : RedisOption :=
  redisNamespace namespace.
Definition WithRedisClusterMode : RedisOption := redisClusterMode true.
Definition WithRedisTLS : RedisOption := redisTLS true.

(** Go's [append(s, x)] on a slice. *)
Definition append {A : Type} (s : list A) (x : A) : list A := (s ++ [x])%list.

Record RedisConfig : Type :=
  { Address : string;
    Password : string;
    Namespace : string;
    DisableClusterMode : bool;
    DisableTLS : bool }.

Definition options (c : RedisConfig) : list RedisOption :=
  let options : list RedisOption := [] in
  let options :=
    if negb (Namespace c =? "") then
      append options (WithRedisNamespace (Namespace c))
    else options in
  let options :=
    if negb (DisableClusterMode c) then append options WithRedisClusterMode
    else options in
  let options :=
    if negb (DisableTLS c) then append options WithRedisTLS
    else options in
  options.

(** The loop at the head of [NewRedisStore]: every option is applied, in
    order, to a zero [redisOptions]. *)
Definition resolveOptions (options : list RedisOption) : redisOptions :=
  fold_left (fun opts option => apply option opts) options zero_redisOptions.

(** *** The store *)

Record RedisStore (C : Type) : Type :=
  { client : C; namespace : string }.
Arguments client {C} r.
Arguments namespace {C} r.

(** The constructor the tests of the package use. *)
Definition NewTestRedisStore {C : Type} (c : C) (ns : string) : RedisStore C :=
  {| client := c; namespace := ns |}.

Definition namespaceKey {C : Type} (s : RedisStore C) (key : string) : string :=
  if negb (namespace s =? "") then
    namespace s ++ namespaceSeparator ++ key
  else
    key.

Section Construction.

(** [redisotel.InstrumentTracing] and [redisotel.InstrumentMetrics]
    belong to the driver; each returns an error or [nil]. *)
Variable InstrumentTracing : redis.UniversalClient -> option error.
Variable InstrumentMetrics : redis.UniversalClient -> option error.

Definition NewRedisStore (address password : string)
    (options : list RedisOption) : outcome (RedisStore redis.UniversalClient) :=
  let opts := resolveOptions options in
  let client :=
    if opt_clusterMode opts then
      let tlsConfig :=
        if opt_enableTLS opts then
          Some {| tls.MinVersion := tls.VersionTLS12 |}
        else None in
      redis.NewClusterClient
        {| redis.Addrs := [address];
           redis.ClusterPassword := password;
           redis.ClusterTLSConfig := tlsConfig |}
    else
      redis.NewClient
        {| redis.Addr := address;
           redis.Password := password;
           redis.DB := 0;
           redis.TLSConfig := None |} in
  match InstrumentTracing client with
  | Some err => Panicked err
  | None =>
      match InstrumentMetrics client with
      | Some err => Panicked err
      | None =>
          Returned {| client := client; namespace := opt_namespace opts |}
      end
  end.

Definition NewRedisStoreFromConfig (config : RedisConfig)
    : outcome (RedisStore redis.UniversalClient) :=
  NewRedisStore (Address config) (Password config) (options config).

End Construction.

Section Operations.

(** [context.Context]: the store hands it to the driver untouched. *)
Variable Context : Type.

(** The interface [redisClient]. *)
Class redisClient (C : Type) : Type :=
  { client_Set : C -> Context -> string -> string -> time.Duration ->
                 redis.StatusCmd * C;
    client_Get : C -> Context -> string -> redis.StringCmd * C }.

Context {C : Type} `{redisClient C}.

(** The method [Set] of [*RedisStore] ([Set] is a reserved word here).  The
    result is the error returned and the store, whose driver has moved to
    its next state when it was called. *)
Definition RedisStore_Set (s : RedisStore C) (ctx : Context)
    (key value : string) (expiry : time.Duration)
    : option error * RedisStore C :=
  if (expiry =? 0)%Z then
    (Some NewInvalidExpiry, s)
  else
    let key := namespaceKey s key in
    let '(cmd, c) := client_Set (client s) ctx key value expiry in
    let s := {| client := c; namespace := namespace s |} in
    match redis.Err cmd with
    | Some err => (Some (NewSetError key err), s)
    | None => (None, s)
    end.

(** The method [Get] of [*RedisStore]. *)
Definition RedisStore_Get (s : RedisStore C) (ctx : Context) (key : string)
    : (string * option error) * RedisStore C :=
  let key := namespaceKey s key in
  let '(cmd, c) := client_Get (client s) ctx key in
  let s := {| client := c; namespace := namespace s |} in
  let '(value, err) := redis.Result cmd in
  match err with
  | Some err =>
      if redis.is_Nil err then
        (("", Some (NewKeyNotFound key)), s)
      else
        (("", Some (NewGetError key err)), s)
  | None => ((value, None), s)
  end.

End Operations.

Arguments client_Set {Context C _} _ _ _ _ _.
Arguments client_Get {Context C _} _ _ _.
Arguments RedisStore_Set {Context C _} s ctx key value expiry.
Arguments RedisStore_Get {Context C _} s ctx key.

(** ** Observing the driver *)

(** A call received by the driver, with its arguments. *)
Inductive call (Context : Type) : Type :=
| CallSet (ctx : Context) (key value : string) (expiry : time.Duration)
| CallGet (ctx : Context) (key : string).
Arguments CallSet {Context} ctx key value expiry.
Arguments CallGet {Context} ctx key.

(** A driver together with the log of the calls made to it, oldest first. *)
Record recorder (Context C : Type) : Type :=
  { inner : C; calls : list (call Context) }.
Arguments inner {Context C} r.
Arguments calls {Context C} r.

#[export] Instance recorder_redisClient {Context C : Type}
    `{redisClient Context C} : redisClient Context (recorder Context C) :=
  {| client_Set r ctx key value expiry :=
       let '(cmd, c) := client_Set (inner r) ctx key value expiry in
       (cmd, {| inner := c; calls := append (calls r) (CallSet ctx key value expiry) |});
     client_Get r ctx key :=
       let '(cmd, c) := client_Get (inner r) ctx key in
       (cmd, {| inner := c; calls := append (calls r) (CallGet ctx key) |}) |}.

(** A driver that answers from a script, as the mock of the tests does. *)
Record scripted : Type :=
  { set_reply : string -> string -> time.Duration -> redis.StatusCmd;
    get_reply : string -> redis.StringCmd }.

#[export] Instance scripted_redisClient : redisClient unit scripted :=
  {| client_Set c _ key value expiry := (set_reply c key value expiry, c);
     client_Get c _ key := (get_reply c key, c) |}.

(** The mocks of the tests. *)
Definition mockKey : string := "key".
Definition mockValue : string := "value".
Definition mockNamespace : string := "example".
Definition mockAddress : string := "127.0.0.1:6379".
Definition mockPassword : string := "password".
Definition mockError : error := DriverError "mock error".

Definition mock (set_err get_err : option error) (stored : string)
    : recorder unit scripted :=
  {| inner := {| set_reply := fun _ _ _ => redis.NewStatusResult "" set_err;
                 get_reply := fun _ => redis.NewStringResult stored get_err |};
     calls := [] |}.

(** Instrumentation that accepts every client the store constructs. *)
Definition instrumented : redis.UniversalClient -> option error :=
  fun _ => None.

(** ** Vocabulary of the further properties *)

(** Whether a string holds the separator [":"]. *)
Fixpoint contains_separator (s : string) : bool :=
  match s with
  | EmptyString => false
  | String a rest => Ascii.eqb a ":" || contains_separator rest
  end.

(** The options a caller of the package can make: the three option types
    are unexported, so a value comes from [WithRedisNamespace],
    [WithRedisClusterMode] or [WithRedisTLS], and the two flags never hold
    [false]. *)
Definition from_constructor (o : RedisOption) : bool :=
  match o with
  | redisNamespace _ => true
  | redisClusterMode r => r
  | redisTLS r => r
  end.

Definition is_redisNamespace (o : RedisOption) : bool :=
  match o with redisNamespace _ => true | _ => false end.

(** Two laws a driver may obey.  The first: after a SET that succeeded, a
    GET of the same key answers the value set.  The second: a SET leaves
    the answer to a GET of any other key as it was. *)
Definition reads_own_writes (Context C : Type) `{redisClient Context C} : Prop :=
  forall (c c' : C) ctx key value expiry cmd,
    client_Set c ctx key value expiry = (cmd, c') ->
    redis.Err cmd = None ->
    redis.Result (fst (client_Get c' ctx key)) = (value, None).

Definition writes_one_key (Context C : Type) `{redisClient Context C} : Prop :=
  forall (c : C) ctx key value expiry other,
    other <> key ->
    fst (client_Get (snd (client_Set c ctx key value expiry)) ctx other) =
    fst (client_Get c ctx other).

(** A driver that obeys both: a memory of the pairs set, newest first,
    that forgets the expiry. *)
Definition memory : Type := list (string * string).

Fixpoint lookup (key : string) (m : memory) : option string :=
  match m with
  | [] => None
  | (k, v) :: rest => if (k =? key)%string then Some v else lookup key rest
  end.

#[export] Instance memory_redisClient : redisClient unit memory :=
  {| client_Set m _ key value _ :=
       (redis.NewStatusResult "OK" None, (key, value) :: m);
     client_Get m _ key :=
       match lookup key m with
       | Some v => (redis.NewStringResult v None, m)
       | None => (redis.NewStringResult "" (Some redis.Nil), m)
       end |}.

(** ** Properties *)

(** *** Namespacing *)

Lemma namespaceKey_nonempty {C : Type} (c : C) (N K : string) :
  N <> "" -> namespaceKey (NewTestRedisStore c N) K = N ++ ":" ++ K.
Proof.
  intros HN. unfold namespaceKey, NewTestRedisStore; simpl.
  destruct (N =? "") eqn:E; [apply String.eqb_eq in E; contradiction | reflexivity].
Qed.

Lemma namespaceKey_empty {C : Type} (c : C) (K : string) :
  namespaceKey (NewTestRedisStore c "") K = K.
Proof. reflexivity. Qed.

(** *** What reaches the driver *)

Section Recorded.
Context {Context C : Type} `{redisClient Context C}.

Implicit Types (s : RedisStore (recorder Context C)) (ctx : Context).

Lemma Set_recorded s ctx key value expiry :
  expiry <> 0%Z ->
  calls (client (snd (RedisStore_Set s ctx key value expiry))) =
  append (calls (client s)) (CallSet ctx (namespaceKey s key) value expiry).
Proof.
  intros Hd. unfold RedisStore_Set.
  destruct (Z.eqb_spec expiry 0) as [E | _]; [contradiction |].
  simpl client_Set.
  destruct (client_Set (inner (client s)) ctx (namespaceKey s key) value expiry)
    as [cmd c].
  destruct (redis.Err cmd); reflexivity.
Qed.

Lemma Get_recorded s ctx key :
  calls (client (snd (RedisStore_Get s ctx key))) =
  append (calls (client s)) (CallGet ctx (namespaceKey s key)).
Proof.
  unfold RedisStore_Get. simpl client_Get.
  destruct (client_Get (inner (client s)) ctx (namespaceKey s key)) as [cmd c].
  destruct (redis.Result cmd) as [value [err |]]; [| reflexivity].
  destruct (redis.is_Nil err); reflexivity.
Qed.
End Recorded.

(** *** The outcome of [Set] and [Get], case by case *)

Section Outcomes.
Context {Context C : Type} `{redisClient Context C}.

Implicit Types (s : RedisStore C) (ctx : Context).

Lemma Set_zero s ctx key value :
  RedisStore_Set s ctx key value 0%Z = (Some InvalidExpiry, s).
Proof. reflexivity. Qed.

Lemma Set_nonzero s ctx key value expiry cmd c :
  expiry <> 0%Z ->
  client_Set (client s) ctx (namespaceKey s key) value expiry = (cmd, c) ->
  RedisStore_Set s ctx key value expiry =
  (match redis.Err cmd with
   | Some err => Some (SetError (namespaceKey s key) err)
   | None => None
   end,
   {| client := c; namespace := namespace s |}).
Proof.
  intros Hd Hcall. unfold RedisStore_Set.
  destruct (Z.eqb_spec expiry 0) as [E | _]; [contradiction |].
  rewrite Hcall. destruct (redis.Err cmd); reflexivity.
Qed.

Lemma is_Nil_spec (err : error) :
  redis.is_Nil err = true <-> err = redis.Nil.
Proof. destruct err; simpl; split; intros E; try discriminate; reflexivity. Qed.

Lemma is_Nil_false (err : error) :
  err <> redis.Nil -> redis.is_Nil err = false.
Proof.
  intros Hne. destruct (redis.is_Nil err) eqn:E; [| reflexivity].
  apply is_Nil_spec in E. contradiction.
Qed.
End Outcomes.

(** *** Resolution of the options *)

Lemma resolveOptions_config (config : RedisConfig) :
  resolveOptions (options config) =
  {| opt_namespace := Namespace config;
     opt_clusterMode := negb (DisableClusterMode config);
     opt_enableTLS := negb (DisableTLS config) |}.
Proof.
  destruct config as [addr pw ns dcm dtls]. unfold options; simpl.
  destruct (ns =? "") eqn:E; [apply String.eqb_eq in E; subst ns |];
    destruct dcm, dtls; reflexivity.
Qed.

Lemma NewRedisStore_panics_tracing IT IM address password opts err :
  (forall c, IT c = Some err) ->
  NewRedisStore IT IM address password opts = Panicked err.
Proof. intros HIT. unfold NewRedisStore. rewrite HIT. reflexivity. Qed.

(** ** The contract of the store *)

(** C1.  With a non-empty namespace [N], the key that [Set] and [Get] send
    to the driver for a key [K] is [N ++ ":" ++ K]; with the empty
    namespace it is [K] itself.  ([Set] reaches the driver when the expiry
    is not zero.) *)
Theorem key_sent_to_backend
    {Context C : Type} `{redisClient Context C}
    (c : recorder Context C) (ctx : Context) (N K : string) :
  (N <> "" ->
   (forall value expiry, expiry <> 0%Z ->
      calls (client (snd (RedisStore_Set (NewTestRedisStore c N) ctx K value expiry))) =
      (calls c ++ [CallSet ctx (N ++ ":" ++ K) value expiry])%list) /\
   calls (client (snd (RedisStore_Get (NewTestRedisStore c N) ctx K))) =
   (calls c ++ [CallGet ctx (N ++ ":" ++ K)])%list)
  /\
  ((forall value expiry, expiry <> 0%Z ->
      calls (client (snd (RedisStore_Set (NewTestRedisStore c "") ctx K value expiry))) =
      (calls c ++ [CallSet ctx K value expiry])%list) /\
   calls (client (snd (RedisStore_Get (NewTestRedisStore c "") ctx K))) =
   (calls c ++ [CallGet ctx K])%list).
Proof.
  split.
  - intros HN. split.
    + intros value expiry Hd.
      rewrite Set_recorded by assumption.
      rewrite namespaceKey_nonempty by assumption. reflexivity.
    + rewrite Get_recorded.
      rewrite namespaceKey_nonempty by assumption. reflexivity.
  - split.
    + intros value expiry Hd.
      rewrite Set_recorded by assumption. reflexivity.
    + rewrite Get_recorded. reflexivity.
Qed.

Lemma key_sent_to_backend_witness :
  mockNamespace <> "" /\ time.Hour <> 0%Z /\
  calls (client (snd (RedisStore_Set
    (NewTestRedisStore (mock None None mockValue) mockNamespace)
    tt mockKey mockValue time.Hour))) =
  [CallSet tt "example:key" "value" time.Hour] /\
  calls (client (snd (RedisStore_Get
    (NewTestRedisStore (mock None None mockValue) mockNamespace) tt mockKey))) =
  [CallGet tt "example:key"].
Proof.
  assert (HN : mockNamespace <> "") by discriminate.
  assert (Hd : time.Hour <> 0%Z) by discriminate.
  destruct (key_sent_to_backend (mock None None mockValue) tt mockNamespace mockKey)
    as [Hne _].
  destruct (Hne HN) as [HS HG].
  split; [exact HN |]. split; [exact Hd |].
  split; [exact (HS mockValue time.Hour Hd) | exact HG].
Defined.

(** C2.  The documentation of [Set] asks for an expiry greater than zero
    and promises [InvalidExpiry] otherwise; the code tests [expiry == 0]
    only.  With an expiry of minus one hour, a store without namespace over
    a driver whose SET succeeds returns no error, and the driver has
    received the SET. *)
Theorem Set_negative_expiry_reaches_driver :
  time.in_range (- time.Hour)%Z /\
  RedisStore_Set (NewTestRedisStore (mock None None "") "")
    tt mockKey mockValue (- time.Hour)%Z =
  (None,
   NewTestRedisStore
     {| inner := inner (mock None None "");
        calls := [CallSet tt "key" "value" (-3600000000000)%Z] |} "").
Proof.
  split; [| reflexivity].
  unfold time.in_range, time.Hour. lia.
Qed.

(** C3.  [Set] with an expiry of exactly zero returns [InvalidExpiry] and
    makes no call to the driver: the log of calls is the one before, and
    the store is left as it was. *)
Theorem Set_zero_expiry
    {Context C : Type} `{redisClient Context C}
    (s : RedisStore (recorder Context C)) (ctx : Context) (key value : string) :
  fst (RedisStore_Set s ctx key value 0%Z) = Some InvalidExpiry /\
  calls (client (snd (RedisStore_Set s ctx key value 0%Z))) = calls (client s) /\
  snd (RedisStore_Set s ctx key value 0%Z) = s.
Proof. rewrite Set_zero. repeat split. Qed.

(** C4.  [Set] with an expiry greater than zero: when the driver's SET on
    the namespaced key succeeds, [Set] returns no error; when it fails,
    with any cause, [Set] returns a [SetError] carrying the namespaced key
    and that cause. *)
Theorem Set_positive_expiry
    {Context C : Type} `{redisClient Context C}
    (s : RedisStore C) (ctx : Context) (key value : string)
    (expiry : time.Duration) (cmd : redis.StatusCmd) (c : C) :
  (0 < expiry)%Z ->
  client_Set (client s) ctx (namespaceKey s key) value expiry = (cmd, c) ->
  (redis.Err cmd = None ->
   fst (RedisStore_Set s ctx key value expiry) = None) /\
  (forall cause, redis.Err cmd = Some cause ->
   fst (RedisStore_Set s ctx key value expiry) =
   Some (SetError (namespaceKey s key) cause)).
Proof.
  intros Hd Hcall.
  rewrite (Set_nonzero s ctx key value expiry cmd c) by (lia || assumption).
  simpl fst. split.
  - intros E. rewrite E. reflexivity.
  - intros cause E. rewrite E. reflexivity.
Qed.

Lemma Set_positive_expiry_witness :
  fst (RedisStore_Set (NewTestRedisStore (mock None None "") mockNamespace)
         tt mockKey mockValue time.Hour) = None /\
  fst (RedisStore_Set (NewTestRedisStore (mock (Some mockError) None "") mockNamespace)
         tt mockKey mockValue time.Hour) =
  Some (SetError "example:key" (DriverError "mock error")).
Proof.
  split.
  - refine (proj1 (Set_positive_expiry
      (NewTestRedisStore (mock None None "") mockNamespace)
      tt mockKey mockValue time.Hour _ _ _ eq_refl) eq_refl).
    reflexivity.
  - refine (proj2 (Set_positive_expiry
      (NewTestRedisStore (mock (Some mockError) None "") mockNamespace)
      tt mockKey mockValue time.Hour _ _ _ eq_refl) mockError eq_refl).
    reflexivity.
Defined.

(** C5.  When the driver answers the GET on the namespaced key with its
    sentinel [redis.Nil], [Get] returns the empty string and a
    [KeyNotFound] carrying the namespaced key, whatever value the reply
    holds. *)
Theorem Get_key_not_found
    {Context C : Type} `{redisClient Context C}
    (s : RedisStore C) (ctx : Context) (key : string)
    (cmd : redis.StringCmd) (c : C) (value : string) :
  client_Get (client s) ctx (namespaceKey s key) = (cmd, c) ->
  redis.Result cmd = (value, Some redis.Nil) ->
  fst (RedisStore_Get s ctx key) = ("", Some (KeyNotFound (namespaceKey s key))).
Proof.
  intros Hcall Hres. unfold RedisStore_Get.
  rewrite Hcall, Hres. reflexivity.
Qed.

Lemma Get_key_not_found_witness :
  fst (RedisStore_Get (NewTestRedisStore (mock None (Some redis.Nil) "") "")
         tt mockKey) = ("", Some (KeyNotFound "key")) /\
  fst (RedisStore_Get
         (NewTestRedisStore (mock None (Some redis.Nil) "stale") mockNamespace)
         tt mockKey) = ("", Some (KeyNotFound "example:key")).
Proof.
  split.
  - exact (Get_key_not_found
      (NewTestRedisStore (mock None (Some redis.Nil) "") "")
      tt mockKey _ _ "" eq_refl eq_refl).
  - exact (Get_key_not_found
      (NewTestRedisStore (mock None (Some redis.Nil) "stale") mockNamespace)
      tt mockKey _ _ "stale" eq_refl eq_refl).
Defined.

(** C6.  When the driver answers the GET on the namespaced key with a
    value [v] and no error, [Get] returns [v] as it is, and no error. *)
Theorem Get_found
    {Context C : Type} `{redisClient Context C}
    (s : RedisStore C) (ctx : Context) (key : string)
    (cmd : redis.StringCmd) (c : C) (v : string) :
  client_Get (client s) ctx (namespaceKey s key) = (cmd, c) ->
  redis.Result cmd = (v, None) ->
  fst (RedisStore_Get s ctx key) = (v, None).
Proof.
  intros Hcall Hres. unfold RedisStore_Get.
  rewrite Hcall, Hres. reflexivity.
Qed.

Lemma Get_found_witness :
  fst (RedisStore_Get (NewTestRedisStore (mock None None mockValue) mockNamespace)
         tt mockKey) = ("value", None).
Proof.
  exact (Get_found
    (NewTestRedisStore (mock None None mockValue) mockNamespace)
    tt mockKey _ _ mockValue eq_refl eq_refl).
Defined.

(** C7.  When the driver's GET on the namespaced key fails with an error
    other than [redis.Nil], [Get] returns the empty string and a
    [GetError] carrying the namespaced key and that error. *)
Theorem Get_error
    {Context C : Type} `{redisClient Context C}
    (s : RedisStore C) (ctx : Context) (key : string)
    (cmd : redis.StringCmd) (c : C) (value : string) (cause : error) :
  client_Get (client s) ctx (namespaceKey s key) = (cmd, c) ->
  redis.Result cmd = (value, Some cause) ->
  cause <> redis.Nil ->
  fst (RedisStore_Get s ctx key) =
  ("", Some (GetError (namespaceKey s key) cause)).
Proof.
  intros Hcall Hres Hne. unfold RedisStore_Get.
  rewrite Hcall, Hres, (is_Nil_false cause Hne). reflexivity.
Qed.

Lemma Get_error_witness :
  mockError <> redis.Nil /\
  fst (RedisStore_Get
         (NewTestRedisStore (mock None (Some mockError) "partial") mockNamespace)
         tt mockKey) =
  ("", Some (GetError "example:key" (DriverError "mock error"))).
Proof.
  assert (Hne : mockError <> redis.Nil) by discriminate.
  split; [exact Hne |].
  exact (Get_error
    (NewTestRedisStore (mock None (Some mockError) "partial") mockNamespace)
    tt mockKey _ _ "partial" mockError eq_refl eq_refl Hne).
Defined.

(** C9.  [Set] returns [InvalidExpiry] for the expiry zero and for no
    other: with an expiry below zero it does not return [InvalidExpiry],
    and the driver receives the SET on the namespaced key with that
    expiry. *)
Theorem Set_negative_expiry
    {Context C : Type} `{redisClient Context C}
    (s : RedisStore (recorder Context C)) (ctx : Context) (key value : string)
    (expiry : time.Duration) :
  (expiry < 0)%Z ->
  fst (RedisStore_Set s ctx key value expiry) <> Some InvalidExpiry /\
  calls (client (snd (RedisStore_Set s ctx key value expiry))) =
  (calls (client s) ++ [CallSet ctx (namespaceKey s key) value expiry])%list /\
  (forall d : time.Duration,
     fst (RedisStore_Set s ctx key value d) = Some InvalidExpiry <-> d = 0%Z).
Proof.
  intros Hd.
  assert (Hfst : forall d : time.Duration, d <> 0%Z ->
            fst (RedisStore_Set s ctx key value d) <> Some InvalidExpiry).
  { intros d Hnz.
    destruct (client_Set (client s) ctx (namespaceKey s key) value d)
      as [cmd c] eqn:Hcall.
    rewrite (Set_nonzero s ctx key value d cmd c Hnz Hcall). simpl fst.
    destruct (redis.Err cmd); discriminate. }
  split; [apply Hfst; lia |].
  split; [apply Set_recorded; lia |].
  intros d. split.
  - intros E. destruct (Z.eq_dec d 0) as [E0 | Hnz]; [exact E0 |].
    exfalso. exact (Hfst d Hnz E).
  - intros ->. reflexivity.
Qed.

Lemma Set_negative_expiry_witness :
  fst (RedisStore_Set (NewTestRedisStore (mock None None "") mockNamespace)
         tt mockKey mockValue (-1)%Z) <> Some InvalidExpiry /\
  calls (client (snd (RedisStore_Set
    (NewTestRedisStore (mock None None "") mockNamespace)
    tt mockKey mockValue (-1)%Z))) =
  [CallSet tt "example:key" "value" (-1)%Z].
Proof.
  destruct (Set_negative_expiry
    (NewTestRedisStore (mock None None "") mockNamespace)
    tt mockKey mockValue (-1)%Z eq_refl) as [Hne [Hcalls _]].
  split; [exact Hne | exact Hcalls].
Defined.

(** *** Construction *)

(** C8.  Provided the instrumentation accepts the client: when the options
    resolve to cluster mode off, [NewRedisStore] returns a store over a
    single-node client made from options without TLS configuration,
    whatever the TLS option; when they resolve to cluster mode on and TLS
    on, it returns a store over a cluster client whose TLS configuration
    sets the minimum version, to TLS 1.2. *)
Theorem NewRedisStore_client
    (InstrumentTracing InstrumentMetrics : redis.UniversalClient -> option error)
    (address password : string) (opts : list RedisOption) :
  (forall rdb, InstrumentTracing rdb = None) ->
  (forall rdb, InstrumentMetrics rdb = None) ->
  (opt_clusterMode (resolveOptions opts) = false ->
   NewRedisStore InstrumentTracing InstrumentMetrics address password opts =
   Returned
     {| client := redis.NewClient
                    {| redis.Addr := address;
                       redis.Password := password;
                       redis.DB := 0;
                       redis.TLSConfig := None |};
        namespace := opt_namespace (resolveOptions opts) |})
  /\
  (opt_clusterMode (resolveOptions opts) = true ->
   opt_enableTLS (resolveOptions opts) = true ->
   NewRedisStore InstrumentTracing InstrumentMetrics address password opts =
   Returned
     {| client := redis.NewClusterClient
                    {| redis.Addrs := [address];
                       redis.ClusterPassword := password;
                       redis.ClusterTLSConfig :=
                         Some {| tls.MinVersion := tls.VersionTLS12 |} |};
        namespace := opt_namespace (resolveOptions opts) |}).
Proof.
  intros HIT HIM. unfold NewRedisStore. split.
  - intros Hcm. rewrite Hcm, HIT, HIM. reflexivity.
  - intros Hcm Htls. rewrite Hcm, Htls, HIT, HIM. reflexivity.
Qed.

Lemma NewRedisStore_client_witness :
  NewRedisStore instrumented instrumented mockAddress mockPassword
    [WithRedisTLS; WithRedisNamespace mockNamespace] =
  Returned
    {| client := redis.NewClient
                   {| redis.Addr := "127.0.0.1:6379";
                      redis.Password := "password";
                      redis.DB := 0;
                      redis.TLSConfig := None |};
       namespace := "example" |}
  /\
  NewRedisStore instrumented instrumented mockAddress mockPassword
    [WithRedisClusterMode; WithRedisTLS] =
  Returned
    {| client := redis.NewClusterClient
                   {| redis.Addrs := ["127.0.0.1:6379"];
                      redis.ClusterPassword := "password";
                      redis.ClusterTLSConfig := Some {| tls.MinVersion := 771 |} |};
       namespace := "" |}.
Proof.
  split.
  - exact (proj1 (NewRedisStore_client instrumented instrumented
      mockAddress mockPassword [WithRedisTLS; WithRedisNamespace mockNamespace]
      (fun _ => eq_refl) (fun _ => eq_refl)) eq_refl).
  - exact (proj2 (NewRedisStore_client instrumented instrumented
      mockAddress mockPassword [WithRedisClusterMode; WithRedisTLS]
      (fun _ => eq_refl) (fun _ => eq_refl)) eq_refl eq_refl).
Defined.

(** C10.  Without options, [NewRedisStore] resolves to cluster mode off,
    TLS off and the empty namespace, and returns a store over a
    single-node client.  [NewRedisStoreFromConfig] differs: a configuration
    whose two disable flags are false, as in the zero configuration,
    resolves to cluster mode on and TLS on, and the store is over a cluster
    client with a TLS configuration. *)
Theorem defaults_differ
    (InstrumentTracing InstrumentMetrics : redis.UniversalClient -> option error) :
  (forall rdb, InstrumentTracing rdb = None) ->
  (forall rdb, InstrumentMetrics rdb = None) ->
  (resolveOptions [] =
   {| opt_namespace := ""; opt_clusterMode := false; opt_enableTLS := false |}
   /\
   forall address password,
     NewRedisStore InstrumentTracing InstrumentMetrics address password [] =
     Returned
       {| client := redis.NewClient
                      {| redis.Addr := address;
                         redis.Password := password;
                         redis.DB := 0;
                         redis.TLSConfig := None |};
          namespace := "" |})
  /\
  (forall config,
     DisableClusterMode config = false ->
     DisableTLS config = false ->
     opt_clusterMode (resolveOptions (options config)) = true /\
     opt_enableTLS (resolveOptions (options config)) = true /\
     NewRedisStoreFromConfig InstrumentTracing InstrumentMetrics config =
     Returned
       {| client := redis.NewClusterClient
                      {| redis.Addrs := [Address config];
                         redis.ClusterPassword := Password config;
                         redis.ClusterTLSConfig :=
                           Some {| tls.MinVersion := tls.VersionTLS12 |} |};
          namespace := Namespace config |}).
Proof.
  intros HIT HIM. split.
  - split; [reflexivity |].
    intros address password. unfold NewRedisStore. simpl.
    rewrite HIT, HIM. reflexivity.
  - intros config Hcm Htls.
    unfold NewRedisStoreFromConfig, NewRedisStore.
    rewrite resolveOptions_config, Hcm, Htls. simpl.
    rewrite HIT, HIM. repeat split.
Qed.

Lemma defaults_differ_witness :
  NewRedisStore instrumented instrumented mockAddress mockPassword [] =
  Returned
    {| client := redis.NewClient
                   {| redis.Addr := "127.0.0.1:6379";
                      redis.Password := "password";
                      redis.DB := 0;
                      redis.TLSConfig := None |};
       namespace := "" |}
  /\
  NewRedisStoreFromConfig instrumented instrumented
    {| Address := mockAddress; Password := mockPassword; Namespace := "";
       DisableClusterMode := false; DisableTLS := false |} =
  Returned
    {| client := redis.NewClusterClient
                   {| redis.Addrs := ["127.0.0.1:6379"];
                      redis.ClusterPassword := "password";
                      redis.ClusterTLSConfig := Some {| tls.MinVersion := 771 |} |};
       namespace := "" |}.
Proof.
  destruct (defaults_differ instrumented instrumented
    (fun _ => eq_refl) (fun _ => eq_refl)) as [[_ Hnone] Hconfig].
  split.
  - exact (Hnone mockAddress mockPassword).
  - exact (proj2 (proj2 (Hconfig
      {| Address := mockAddress; Password := mockPassword; Namespace := "";
         DisableClusterMode := false; DisableTLS := false |} eq_refl eq_refl))).
Defined.

(** ** Further properties of the namespacing *)

Lemma append_cancel_l (p a b : string) : p ++ a = p ++ b -> a = b.
Proof.
  induction p as [| ch p IH]; simpl; intros E; [exact E |].
  injection E as E. exact (IH E).
Qed.

Lemma append_associative (a b c : string) : (a ++ b) ++ c = a ++ (b ++ c).
Proof.
  induction a as [| ch a IH]; simpl; [reflexivity |].
  rewrite IH. reflexivity.
Qed.

Lemma separator_splits (n1 n2 k1 k2 : string) :
  contains_separator n1 = false ->
  contains_separator n2 = false ->
  n1 ++ ":" ++ k1 = n2 ++ ":" ++ k2 ->
  n1 = n2 /\ k1 = k2.
Proof.
  revert n2. induction n1 as [| a n1 IH]; intros [| b n2] H1 H2 E; simpl in *.
  - injection E as E. split; [reflexivity | exact E].
  - injection E as Eb _. subst b. discriminate H2.
  - injection E as Ea _. subst a. discriminate H1.
  - injection E as Eab E. subst b.
    apply orb_false_elim in H1 as [_ H1]. apply orb_false_elim in H2 as [_ H2].
    destruct (IH n2 H1 H2 E) as [-> ->]. split; reflexivity.
Qed.

Lemma namespaceKey_cancel {C : Type} (s : RedisStore C) (K1 K2 : string) :
  namespaceKey s K1 = namespaceKey s K2 -> K1 = K2.
Proof.
  unfold namespaceKey. intros E.
  destruct (negb (namespace s =? "")); [| exact E].
  apply append_cancel_l in E. apply append_cancel_l in E. exact E.
Qed.

Lemma namespaceKey_apart {C : Type} (s1 s2 : RedisStore C) (K1 K2 : string) :
  namespace s1 <> "" -> namespace s2 <> "" ->
  contains_separator (namespace s1) = false ->
  contains_separator (namespace s2) = false ->
  namespaceKey s1 K1 = namespaceKey s2 K2 ->
  namespace s1 = namespace s2 /\ K1 = K2.
Proof.
  intros Hn1 Hn2 Hc1 Hc2 E. unfold namespaceKey in E.
  destruct (namespace s1 =? "") eqn:E1; [apply String.eqb_eq in E1; contradiction |].
  destruct (namespace s2 =? "") eqn:E2; [apply String.eqb_eq in E2; contradiction |].
  simpl in E. exact (separator_splits _ _ _ _ Hc1 Hc2 E).
Qed.

(** X1.  Within one store, two different keys are never sent to the driver
    as the same key: [namespaceKey] is injective in the key, with or
    without a namespace. *)
Theorem namespaceKey_injective {C : Type} (s : RedisStore C) (K1 K2 : string) :
  K1 <> K2 -> namespaceKey s K1 <> namespaceKey s K2.
Proof.
  intros Hne E. apply Hne. exact (namespaceKey_cancel s K1 K2 E).
Qed.

Lemma namespaceKey_injective_witness :
  namespaceKey (NewTestRedisStore tt mockNamespace) "key" <>
  namespaceKey (NewTestRedisStore tt mockNamespace) "key2".
Proof.
  apply (namespaceKey_injective (NewTestRedisStore tt mockNamespace) "key" "key2").
  discriminate.
Defined.

(** X2.  Two stores whose namespaces are different, not empty and free of
    [":"] never send the same key to the driver, whatever keys they are
    given. *)
Theorem namespaces_disjoint {C : Type} (s1 s2 : RedisStore C) (K1 K2 : string) :
  namespace s1 <> "" -> namespace s2 <> "" ->
  contains_separator (namespace s1) = false ->
  contains_separator (namespace s2) = false ->
  namespace s1 <> namespace s2 ->
  namespaceKey s1 K1 <> namespaceKey s2 K2.
Proof.
  intros Hn1 Hn2 Hc1 Hc2 Hne E. apply Hne.
  exact (proj1 (namespaceKey_apart s1 s2 K1 K2 Hn1 Hn2 Hc1 Hc2 E)).
Qed.

Lemma namespaces_disjoint_witness :
  namespaceKey (NewTestRedisStore tt "example") "key" <>
  namespaceKey (NewTestRedisStore tt "sample") "key".
Proof.
  apply (namespaces_disjoint
           (NewTestRedisStore tt "example") (NewTestRedisStore tt "sample")
           "key" "key");
    try discriminate; reflexivity.
Defined.

(** X3.  The separator does not keep namespaces apart when it may occur
    in a namespace or in a key.  A store without namespace given the key
    [N ++ ":" ++ K] sends what a store with namespace [N] sends for [K];
    and a store with namespace [N1] given [N2 ++ ":" ++ K] sends what a
    store with namespace [N1 ++ ":" ++ N2] sends for [K]. *)
Theorem namespaces_nest {C : Type} (c : C) (N1 N2 K : string) :
  N1 <> "" ->
  namespaceKey (NewTestRedisStore c "") (N1 ++ ":" ++ K) =
  namespaceKey (NewTestRedisStore c N1) K
  /\
  namespaceKey (NewTestRedisStore c N1) (N2 ++ ":" ++ K) =
  namespaceKey (NewTestRedisStore c (N1 ++ ":" ++ N2)) K.
Proof.
  intros HN. split.
  - rewrite namespaceKey_empty, namespaceKey_nonempty by assumption. reflexivity.
  - rewrite !namespaceKey_nonempty.
    + rewrite append_associative. reflexivity.
    + destruct N1; [contradiction | discriminate].
    + assumption.
Qed.

Lemma namespaces_nest_witness :
  namespaceKey (NewTestRedisStore tt "") "example:key" =
  namespaceKey (NewTestRedisStore tt "example") "key"
  /\
  namespaceKey (NewTestRedisStore tt "example") "users:key" =
  namespaceKey (NewTestRedisStore tt "example:users") "key".
Proof.
  apply (namespaces_nest tt "example" "users" "key"). discriminate.
Defined.

(** ** Further properties of [Set] and [Get] *)

Section Store.
Context {Context C : Type} `{redisClient Context C}.

Implicit Types (s : RedisStore C) (ctx : Context).

Lemma Set_client s ctx key value expiry :
  expiry <> 0%Z ->
  client (snd (RedisStore_Set s ctx key value expiry)) =
  snd (client_Set (client s) ctx (namespaceKey s key) value expiry).
Proof.
  intros Hd.
  destruct (client_Set (client s) ctx (namespaceKey s key) value expiry)
    as [cmd c] eqn:Hcall.
  rewrite (Set_nonzero s ctx key value expiry cmd c Hd Hcall). reflexivity.
Qed.

Lemma Set_namespace s ctx key value expiry :
  namespace (snd (RedisStore_Set s ctx key value expiry)) = namespace s.
Proof.
  destruct (Z.eq_dec expiry 0) as [-> | Hd]; [reflexivity |].
  destruct (client_Set (client s) ctx (namespaceKey s key) value expiry)
    as [cmd c] eqn:Hcall.
  rewrite (Set_nonzero s ctx key value expiry cmd c Hd Hcall). reflexivity.
Qed.

Lemma namespaceKey_namespace s s' key :
  namespace s = namespace s' -> namespaceKey s key = namespaceKey s' key.
Proof. unfold namespaceKey. intros ->. reflexivity. Qed.

(** What [Get] returns is decided by the driver's reply and the key sent. *)
Lemma Get_reply s s' ctx key key' :
  namespaceKey s key = namespaceKey s' key' ->
  fst (client_Get (client s) ctx (namespaceKey s key)) =
  fst (client_Get (client s') ctx (namespaceKey s' key')) ->
  fst (RedisStore_Get s ctx key) = fst (RedisStore_Get s' ctx key').
Proof.
  intros Ekey Ereply. unfold RedisStore_Get. rewrite <- Ekey in *.
  destruct (client_Get (client s) ctx (namespaceKey s key)) as [cmd c].
  destruct (client_Get (client s') ctx (namespaceKey s key)) as [cmd' c'].
  simpl in Ereply. subst cmd'.
  destruct (redis.Result cmd) as [v [err |]]; [| reflexivity].
  destruct (redis.is_Nil err); reflexivity.
Qed.

End Store.

Lemma memory_reads_own_writes : reads_own_writes unit memory.
Proof.
  intros m m' ctx key value expiry cmd Hcall _.
  simpl in Hcall. injection Hcall as _ <-.
  simpl. rewrite String.eqb_refl. reflexivity.
Qed.

Lemma memory_writes_one_key : writes_one_key unit memory.
Proof.
  intros m ctx key value expiry other Hne. simpl.
  destruct (key =? other) eqn:E.
  - apply String.eqb_eq in E. subst other. contradiction.
  - destruct (lookup other m); reflexivity.
Qed.

(** X4.  The errors of [Set] are of two kinds only.  It returns
    [InvalidExpiry] exactly for the expiry zero; any other error is a
    [SetError] that carries the namespaced key and the error the driver's
    SET replied with; and no error means the expiry was not zero.  An
    error of the driver is never returned as it is. *)
Theorem Set_error_kinds
    {Context C : Type} `{redisClient Context C}
    (s : RedisStore C) (ctx : Context) (key value : string)
    (expiry : time.Duration) :
  match fst (RedisStore_Set s ctx key value expiry) with
  | None =>
      expiry <> 0%Z /\
      redis.Err (fst (client_Set (client s) ctx (namespaceKey s key) value expiry))
      = None
  | Some InvalidExpiry => expiry = 0%Z
  | Some (SetError k cause) =>
      expiry <> 0%Z /\ k = namespaceKey s key /\
      redis.Err (fst (client_Set (client s) ctx (namespaceKey s key) value expiry))
      = Some cause
  | Some _ => False
  end.
Proof.
  destruct (Z.eq_dec expiry 0) as [-> | Hd]; [reflexivity |].
  destruct (client_Set (client s) ctx (namespaceKey s key) value expiry)
    as [cmd c] eqn:Hcall.
  rewrite (Set_nonzero s ctx key value expiry cmd c Hd Hcall). simpl fst.
  destruct (redis.Err cmd) as [cause |]; repeat split; assumption.
Qed.

(** X5.  The results of [Get] are of three kinds only: a value with no
    error, which is the driver's reply; the empty string with a
    [KeyNotFound] for the namespaced key, when the driver replied
    [redis.Nil]; the empty string with a [GetError] carrying the
    namespaced key and the driver's error, which is not [redis.Nil].  A
    value never comes with an error. *)
Theorem Get_result_kinds
    {Context C : Type} `{redisClient Context C}
    (s : RedisStore C) (ctx : Context) (key : string) :
  let reply :=
    redis.Result (fst (client_Get (client s) ctx (namespaceKey s key))) in
  match fst (RedisStore_Get s ctx key) with
  | (v, None) => reply = (v, None)
  | (EmptyString, Some (KeyNotFound k)) =>
      k = namespaceKey s key /\ snd reply = Some redis.Nil
  | (EmptyString, Some (GetError k cause)) =>
      k = namespaceKey s key /\ cause <> redis.Nil /\ snd reply = Some cause
  | _ => False
  end.
Proof.
  cbv zeta. unfold RedisStore_Get.
  destruct (client_Get (client s) ctx (namespaceKey s key)) as [[v err] c].
  simpl. destruct err as [err |]; [| destruct v; reflexivity].
  destruct (redis.is_Nil err) eqn:E; simpl.
  - apply is_Nil_spec in E. subst err. split; reflexivity.
  - repeat split. intros ->. discriminate E.
Qed.

(** X6.  A [Set] followed by a [Get] on the store it leaves: the driver
    receives the SET, unless the expiry is zero, and then the GET, each on
    the key namespaced with the namespace of the store, which [Set] does
    not change; it receives nothing else, whether the SET failed or not. *)
Theorem Set_then_Get_calls
    {Context C : Type} `{redisClient Context C}
    (s : RedisStore (recorder Context C)) (ctx : Context)
    (K value K' : string) (expiry : time.Duration) :
  calls (client (snd (RedisStore_Get
                        (snd (RedisStore_Set s ctx K value expiry)) ctx K'))) =
  (calls (client s)
   ++ (if (expiry =? 0)%Z then []
       else [CallSet ctx (namespaceKey s K) value expiry])
   ++ [CallGet ctx (namespaceKey s K')])%list.
Proof.
  rewrite Get_recorded.
  rewrite (namespaceKey_namespace _ s K' (Set_namespace s ctx K value expiry)).
  unfold append.
  destruct (Z.eqb_spec expiry 0) as [-> | Hd].
  - rewrite Set_zero. reflexivity.
  - rewrite Set_recorded by assumption. unfold append.
    rewrite <- app_assoc. reflexivity.
Qed.

(** X7.  Over a driver that answers a GET with the value of the SET that
    succeeded before it, the store does the same: when [Set] of a key
    returns no error, [Get] of that key on the store it leaves returns the
    value set and no error. *)
Theorem Get_after_Set
    {Context C : Type} `{redisClient Context C}
    (s : RedisStore C) (ctx : Context) (K value : string)
    (expiry : time.Duration) :
  reads_own_writes Context C ->
  fst (RedisStore_Set s ctx K value expiry) = None ->
  fst (RedisStore_Get (snd (RedisStore_Set s ctx K value expiry)) ctx K) =
  (value, None).
Proof.
  intros Hlaw Hset.
  destruct (Z.eq_dec expiry 0) as [-> | Hd];
    [rewrite Set_zero in Hset; discriminate Hset |].
  destruct (client_Set (client s) ctx (namespaceKey s K) value expiry)
    as [cmd c] eqn:Hcall.
  rewrite (Set_nonzero s ctx K value expiry cmd c Hd Hcall) in *.
  simpl fst in Hset. simpl snd.
  destruct (redis.Err cmd) as [cause |] eqn:Herr; [discriminate Hset |].
  pose proof (Hlaw _ _ _ _ _ _ _ Hcall Herr) as Hget.
  unfold RedisStore_Get.
  change (namespaceKey {| client := c; namespace := namespace s |} K)
    with (namespaceKey s K).
  simpl client.
  destruct (client_Get c ctx (namespaceKey s K)) as [cmd' c'].
  simpl in Hget. rewrite Hget. reflexivity.
Qed.

Lemma Get_after_Set_witness :
  fst (RedisStore_Get
         (snd (RedisStore_Set (NewTestRedisStore ([] : memory) mockNamespace)
                 tt mockKey mockValue time.Hour))
         tt mockKey) = ("value", None).
Proof.
  exact (Get_after_Set (NewTestRedisStore ([] : memory) mockNamespace)
           tt mockKey mockValue time.Hour memory_reads_own_writes eq_refl).
Defined.

(** X8.  Over a driver whose SET changes the answer for the key set only,
    a [Set] of one key does not change what [Get] returns for another key
    of the same store. *)
Theorem Set_keeps_other_keys
    {Context C : Type} `{redisClient Context C}
    (s : RedisStore C) (ctx : Context) (K value K' : string)
    (expiry : time.Duration) :
  writes_one_key Context C ->
  K' <> K ->
  fst (RedisStore_Get (snd (RedisStore_Set s ctx K value expiry)) ctx K') =
  fst (RedisStore_Get s ctx K').
Proof.
  intros Hlaw Hne.
  destruct (Z.eq_dec expiry 0) as [-> | Hd]; [rewrite Set_zero; reflexivity |].
  pose proof (Set_namespace s ctx K value expiry) as Hns.
  pose proof (namespaceKey_namespace _ s K' Hns) as Hkey.
  apply Get_reply; [exact Hkey |].
  rewrite Hkey, Set_client by assumption.
  apply Hlaw. intros E. apply Hne. exact (namespaceKey_cancel s K' K E).
Qed.

Lemma Set_keeps_other_keys_witness :
  fst (RedisStore_Get
         (snd (RedisStore_Set
                 (NewTestRedisStore ([("example:other", "kept")] : memory)
                    mockNamespace)
                 tt mockKey mockValue time.Hour))
         tt "other") = ("kept", None).
Proof.
  exact (Set_keeps_other_keys
           (NewTestRedisStore ([("example:other", "kept")] : memory) mockNamespace)
           tt mockKey mockValue "other" time.Hour
           memory_writes_one_key ltac:(discriminate)).
Defined.

(** X9.  Two stores share one driver, under namespaces that are
    different, not empty and free of [":"].  Over a driver whose SET
    changes the answer for the key set only, a [Set] through the first
    store, of any key, does not change what [Get] returns through the
    second, for any key. *)
Theorem namespace_isolation
    {Context C : Type} `{redisClient Context C}
    (c : C) (ctx : Context) (N1 N2 K1 value K2 : string)
    (expiry : time.Duration) :
  writes_one_key Context C ->
  N1 <> "" -> N2 <> "" ->
  contains_separator N1 = false ->
  contains_separator N2 = false ->
  N1 <> N2 ->
  fst (RedisStore_Get
         (NewTestRedisStore
            (client (snd (RedisStore_Set (NewTestRedisStore c N1)
                            ctx K1 value expiry)))
            N2)
         ctx K2) =
  fst (RedisStore_Get (NewTestRedisStore c N2) ctx K2).
Proof.
  intros Hlaw Hn1 Hn2 Hc1 Hc2 Hne.
  destruct (Z.eq_dec expiry 0) as [-> | Hd]; [rewrite Set_zero; reflexivity |].
  apply Get_reply; [reflexivity |].
  rewrite Set_client by assumption. simpl client.
  change (namespaceKey
            (NewTestRedisStore
               (snd (client_Set c ctx
                       (namespaceKey (NewTestRedisStore c N1) K1) value expiry))
               N2) K2)
    with (namespaceKey (NewTestRedisStore c N2) K2).
  apply Hlaw. intros E. apply Hne. symmetry.
  exact (proj1 (namespaceKey_apart
                  (NewTestRedisStore c N2) (NewTestRedisStore c N1) K2 K1
                  Hn2 Hn1 Hc2 Hc1 E)).
Qed.

Lemma namespace_isolation_witness :
  fst (RedisStore_Get
         (NewTestRedisStore
            (client (snd (RedisStore_Set
                            (NewTestRedisStore ([("sample:key", "kept")] : memory)
                               "example")
                            tt "key" "value" time.Hour)))
            "sample")
         tt "key") = ("kept", None).
Proof.
  exact (namespace_isolation ([("sample:key", "kept")] : memory)
           tt "example" "sample" "key" "value" "key" time.Hour
           memory_writes_one_key
           ltac:(discriminate) ltac:(discriminate) eq_refl eq_refl
           ltac:(discriminate)).
Defined.

(** ** Further properties of the options *)

Section Options.

Let step := fun (opts : redisOptions) (option : RedisOption) => apply option opts.

Lemma resolve_keeps_namespace (opts : list RedisOption) (init : redisOptions) :
  forallb (fun o => negb (is_redisNamespace o)) opts = true ->
  opt_namespace (fold_left step opts init) = opt_namespace init.
Proof.
  revert init. induction opts as [| o opts IH]; intros init Hno; [reflexivity |].
  simpl in Hno. apply andb_prop in Hno as [Ho Hrest].
  simpl. rewrite (IH _ Hrest). destruct o; [discriminate Ho | |]; reflexivity.
Qed.

Lemma resolve_clusterMode (opts : list RedisOption) (init : redisOptions) :
  forallb from_constructor opts = true ->
  opt_clusterMode (fold_left step opts init) = true <->
  opt_clusterMode init = true \/ In WithRedisClusterMode opts.
Proof.
  revert init. induction opts as [| o opts IH]; intros init Hpub; simpl.
  - tauto.
  - simpl in Hpub. apply andb_prop in Hpub as [Ho Hrest].
    rewrite (IH _ Hrest). unfold WithRedisClusterMode.
    destruct o as [n | r | r]; simpl in *; subst.
    + intuition discriminate.
    + tauto.
    + intuition discriminate.
Qed.

Lemma resolve_enableTLS (opts : list RedisOption) (init : redisOptions) :
  forallb from_constructor opts = true ->
  opt_enableTLS (fold_left step opts init) = true <->
  opt_enableTLS init = true \/ In WithRedisTLS opts.
Proof.
  revert init. induction opts as [| o opts IH]; intros init Hpub; simpl.
  - tauto.
  - simpl in Hpub. apply andb_prop in Hpub as [Ho Hrest].
    rewrite (IH _ Hrest). unfold WithRedisTLS.
    destruct o as [n | r | r]; simpl in *; subst.
    + intuition discriminate.
    + intuition discriminate.
    + tauto.
Qed.

(** Two starting points that differ in the TLS flag only lead to results
    that differ in the TLS flag only. *)
Lemma resolve_apart_from_TLS (opts : list RedisOption) (i1 i2 : redisOptions) :
  opt_namespace i1 = opt_namespace i2 ->
  opt_clusterMode i1 = opt_clusterMode i2 ->
  opt_namespace (fold_left step opts i1) = opt_namespace (fold_left step opts i2) /\
  opt_clusterMode (fold_left step opts i1) = opt_clusterMode (fold_left step opts i2).
Proof.
  revert i1 i2. induction opts as [| o opts IH]; intros i1 i2 Hns Hcm; simpl.
  - split; assumption.
  - apply IH; destruct o; simpl; congruence.
Qed.

End Options.

(** X10.  For options made by the constructors of the package, cluster
    mode is on exactly when [WithRedisClusterMode] is among the options,
    and the TLS flag is on exactly when [WithRedisTLS] is among them,
    wherever they stand in the list and however often. *)
Theorem constructor_options_flags (opts : list RedisOption) :
  forallb from_constructor opts = true ->
  (opt_clusterMode (resolveOptions opts) = true <-> In WithRedisClusterMode opts)
  /\
  (opt_enableTLS (resolveOptions opts) = true <-> In WithRedisTLS opts).
Proof.
  intros Hpub. unfold resolveOptions. split.
  - rewrite (resolve_clusterMode opts zero_redisOptions Hpub). simpl.
    intuition discriminate.
  - rewrite (resolve_enableTLS opts zero_redisOptions Hpub). simpl.
    intuition discriminate.
Qed.

Lemma constructor_options_flags_witness :
  opt_clusterMode
    (resolveOptions
       [WithRedisTLS; WithRedisNamespace mockNamespace; WithRedisClusterMode])
  = true.
Proof.
  apply (proj1 (constructor_options_flags
    [WithRedisTLS; WithRedisNamespace mockNamespace; WithRedisClusterMode]
    eq_refl)).
  right. right. left. reflexivity.
Defined.

(** X11.  Of several namespace options the last one decides: the resolved
    namespace is the one of a namespace option that no other namespace
    option follows, also when it is empty; without any namespace option
    the namespace is empty. *)
Theorem last_namespace_wins (before after : list RedisOption) (n : string) :
  forallb (fun o => negb (is_redisNamespace o)) after = true ->
  opt_namespace (resolveOptions (before ++ WithRedisNamespace n :: after)) = n
  /\
  opt_namespace (resolveOptions after) = "".
Proof.
  intros Hno. unfold resolveOptions. split.
  - rewrite fold_left_app. simpl.
    rewrite (resolve_keeps_namespace after _ Hno). reflexivity.
  - rewrite (resolve_keeps_namespace after _ Hno). reflexivity.
Qed.

Lemma last_namespace_wins_witness :
  opt_namespace
    (resolveOptions
       [WithRedisNamespace "first"; WithRedisClusterMode;
        WithRedisNamespace "second"; WithRedisTLS]) = "second"
  /\
  opt_namespace (resolveOptions [WithRedisTLS]) = "".
Proof.
  exact (last_namespace_wins
           [WithRedisNamespace "first"; WithRedisClusterMode] [WithRedisTLS]
           "second" eq_refl).
Defined.

(** ** Further properties of the construction *)

(** X12.  Without cluster mode a TLS option is ignored: when the other
    options resolve to cluster mode off, [NewRedisStore] gives the same
    outcome with a TLS option put anywhere among them as without it. *)
Theorem TLS_ignored_without_cluster
    (InstrumentTracing InstrumentMetrics : redis.UniversalClient -> option error)
    (address password : string) (before after : list RedisOption) (r : bool) :
  opt_clusterMode (resolveOptions (before ++ after)) = false ->
  NewRedisStore InstrumentTracing InstrumentMetrics address password
    (before ++ redisTLS r :: after) =
  NewRedisStore InstrumentTracing InstrumentMetrics address password
    (before ++ after).
Proof.
  intros Hcm. unfold NewRedisStore.
  assert (Hsame :
    opt_namespace (resolveOptions (before ++ redisTLS r :: after)) =
    opt_namespace (resolveOptions (before ++ after)) /\
    opt_clusterMode (resolveOptions (before ++ redisTLS r :: after)) =
    opt_clusterMode (resolveOptions (before ++ after))).
  { unfold resolveOptions. rewrite !fold_left_app. simpl.
    apply resolve_apart_from_TLS; reflexivity. }
  destruct Hsame as [Hns Hcm']. rewrite Hns, Hcm', Hcm. reflexivity.
Qed.

Lemma TLS_ignored_without_cluster_witness :
  NewRedisStore instrumented instrumented mockAddress mockPassword
    [WithRedisNamespace mockNamespace; WithRedisTLS] =
  NewRedisStore instrumented instrumented mockAddress mockPassword
    [WithRedisNamespace mockNamespace].
Proof.
  exact (TLS_ignored_without_cluster instrumented instrumented
           mockAddress mockPassword [WithRedisNamespace mockNamespace] []
           true eq_refl).
Defined.

(** X13.  Cluster mode on with the TLS flag off: provided the
    instrumentation accepts the client, [NewRedisStore] returns a store
    over a cluster client whose options hold the address as only address,
    the password, and no TLS configuration. *)
Theorem NewRedisStore_cluster_without_TLS
    (InstrumentTracing InstrumentMetrics : redis.UniversalClient -> option error)
    (address password : string) (opts : list RedisOption) :
  (forall rdb, InstrumentTracing rdb = None) ->
  (forall rdb, InstrumentMetrics rdb = None) ->
  opt_clusterMode (resolveOptions opts) = true ->
  opt_enableTLS (resolveOptions opts) = false ->
  NewRedisStore InstrumentTracing InstrumentMetrics address password opts =
  Returned
    {| client := redis.NewClusterClient
                   {| redis.Addrs := [address];
                      redis.ClusterPassword := password;
                      redis.ClusterTLSConfig := None |};
       namespace := opt_namespace (resolveOptions opts) |}.
Proof.
  intros HIT HIM Hcm Htls. unfold NewRedisStore.
  rewrite Hcm, Htls, HIT, HIM. reflexivity.
Qed.

Lemma NewRedisStore_cluster_without_TLS_witness :
  NewRedisStore instrumented instrumented mockAddress mockPassword
    [WithRedisClusterMode] =
  Returned
    {| client := redis.NewClusterClient
                   {| redis.Addrs := ["127.0.0.1:6379"];
                      redis.ClusterPassword := "password";
                      redis.ClusterTLSConfig := None |};
       namespace := "" |}.
Proof.
  exact (NewRedisStore_cluster_without_TLS instrumented instrumented
           mockAddress mockPassword [WithRedisClusterMode]
           (fun _ => eq_refl) (fun _ => eq_refl) eq_refl eq_refl).
Defined.


(** X15.  [NewRedisStoreFromConfig], provided the instrumentation accepts
    the client: with [DisableClusterMode] set it returns a store over a
    single-node client at the address and password of the configuration,
    database 0 and no TLS configuration, whatever [DisableTLS]; with
    cluster mode left on and [DisableTLS] set, a store over a cluster
    client without TLS configuration.  In both cases the namespace of the
    store is the one of the configuration. *)
Theorem NewRedisStoreFromConfig_disabled
    (InstrumentTracing InstrumentMetrics : redis.UniversalClient -> option error)
    (config : RedisConfig) :
  (forall rdb, InstrumentTracing rdb = None) ->
  (forall rdb, InstrumentMetrics rdb = None) ->
  (DisableClusterMode config = true ->
   NewRedisStoreFromConfig InstrumentTracing InstrumentMetrics config =
   Returned
     {| client := redis.NewClient
                    {| redis.Addr := Address config;
                       redis.Password := Password config;
                       redis.DB := 0;
                       redis.TLSConfig := None |};
        namespace := Namespace config |})
  /\
  (DisableClusterMode config = false ->
   DisableTLS config = true ->
   NewRedisStoreFromConfig InstrumentTracing InstrumentMetrics config =
   Returned
     {| client := redis.NewClusterClient
                    {| redis.Addrs := [Address config];
                       redis.ClusterPassword := Password config;
                       redis.ClusterTLSConfig := None |};
        namespace := Namespace config |}).
Proof.
  intros HIT HIM. unfold NewRedisStoreFromConfig, NewRedisStore.
  rewrite resolveOptions_config. simpl. split.
  - intros Hcm. rewrite Hcm. simpl. rewrite HIT, HIM. reflexivity.
  - intros Hcm Htls. rewrite Hcm, Htls. simpl. rewrite HIT, HIM. reflexivity.
Qed.

Lemma NewRedisStoreFromConfig_disabled_witness :
  NewRedisStoreFromConfig instrumented instrumented
    {| Address := mockAddress; Password := mockPassword;
       Namespace := mockNamespace;
       DisableClusterMode := true; DisableTLS := false |} =
  Returned
    {| client := redis.NewClient
                   {| redis.Addr := "127.0.0.1:6379";
                      redis.Password := "password";
                      redis.DB := 0;
                      redis.TLSConfig := None |};
       namespace := "example" |}
  /\
  NewRedisStoreFromConfig instrumented instrumented
    {| Address := mockAddress; Password := mockPassword; Namespace := "";
       DisableClusterMode := false; DisableTLS := true |} =
  Returned
    {| client := redis.NewClusterClient
                   {| redis.Addrs := ["127.0.0.1:6379"];
                      redis.ClusterPassword := "password";
                      redis.ClusterTLSConfig := None |};
       namespace := "" |}.
Proof.
  split.
  - exact (proj1 (NewRedisStoreFromConfig_disabled instrumented instrumented
      {| Address := mockAddress; Password := mockPassword;
         Namespace := mockNamespace;
         DisableClusterMode := true; DisableTLS := false |}
      (fun _ => eq_refl) (fun _ => eq_refl)) eq_refl).
  - exact (proj2 (NewRedisStoreFromConfig_disabled instrumented instrumented
      {| Address := mockAddress; Password := mockPassword; Namespace := "";
         DisableClusterMode := false; DisableTLS := true |}
      (fun _ => eq_refl) (fun _ => eq_refl)) eq_refl eq_refl).
Defined.

(** X16.  The options made from a configuration are options a caller
    could have made, at most three, and they resolve to the namespace of
    the configuration and to the negations of its two disable flags. *)
Theorem options_of_config (config : RedisConfig) :
  forallb from_constructor (options config) = true /\
  (List.length (options config) <= 3)%nat /\
  opt_namespace (resolveOptions (options config)) = Namespace config /\
  opt_clusterMode (resolveOptions (options config)) =
    negb (DisableClusterMode config) /\
  opt_enableTLS (resolveOptions (options config)) = negb (DisableTLS config).
Proof.
  rewrite resolveOptions_config. simpl.
  destruct config as [addr pw ns dcm dtls]. unfold options. simpl.
  destruct (ns =? ""), dcm, dtls; simpl; repeat split; lia.
Qed.
